(** * Student counsellor system: chat safety check, route guard, student
      filter, admin maintenance and risk scoring.

    The front end is TypeScript/React.  JavaScript strings are modelled as
    [string] (sequences of 8-bit characters); the model covers ASCII text, on
    which [String.prototype.toLowerCase] maps exactly [A-Z] to [a-z] and
    [String.prototype.trim] strips TAB, LF, VT, FF, CR and SPACE. *)

From Stdlib Require Import Ascii String List Bool Arith NArith ZArith.
From Stdlib Require Import QArith Qminmax Qabs Lia Lqa.
From stdpp Require Import base option list strings gmap.

(** ** JavaScript string primitives used by the pages *)
Module JsString.

(** One character of [toLowerCase]: code units 65..90 move up by 32. *)
Definition lowerChar (c : ascii) : ascii :=
  let n := N_of_ascii c in
  if ((65 <=? n) && (n <=? 90))%N then ascii_of_N (n + 32) else c.

(** [s.toLowerCase()] *)
Fixpoint toLowerCase (s : string) : string :=
  match s with
  | EmptyString => EmptyString
  | String c s' => String (lowerChar c) (toLowerCase s')
  end.

(** [s.startsWith(p)] *)
Fixpoint startsWith (s p : string) {struct p} : bool :=
  match p with
  | EmptyString => true
  | String c p' =>
      match s with
      | EmptyString => false
      | String d s' => Ascii.eqb c d && startsWith s' p'
      end
  end.

(** [s.includes(p)]: [p] occurs in [s] at some position. *)
Fixpoint includes (s p : string) : bool :=
  startsWith s p ||
  match s with
  | EmptyString => false
  | String _ s' => includes s' p
  end.

(** White space and line terminators of the ASCII range. *)
Definition isWhiteSpace (c : ascii) : bool :=
  let n := N_of_ascii c in
  ((9 <=? n) && (n <=? 13) || (n =? 32))%N.

(** [s.trimStart()] *)
Fixpoint trimStart (s : string) : string :=
  match s with
  | EmptyString => EmptyString
  | String c s' => if isWhiteSpace c then trimStart s' else s
  end.

(** [s.trimEnd()]: drop the trailing run of white space. *)
Fixpoint trimEnd (s : string) : string :=
  match s with
  | EmptyString => EmptyString
  | String c s' =>
      match trimEnd s' with
      | EmptyString => if isWhiteSpace c then EmptyString else String c EmptyString
      | r => String c r
      end
  end.

(** [s.trim()] *)
Definition trim (s : string) : string := trimEnd (trimStart s).

(** Truthiness of a string: only the empty string is falsy. *)
Definition truthy (s : string) : bool :=
  match s with
  | EmptyString => false
  | String _ _ => true
  end.

(** [p] occurs in [s] as a contiguous block. *)
Definition Substring (p s : string) : Prop :=
  exists pre post, s = pre +:+ p +:+ post.

(** Every character of [s] is white space. *)
Fixpoint AllWhiteSpace (s : string) : Prop :=
  match s with
  | EmptyString => True
  | String c s' => isWhiteSpace c = true /\ AllWhiteSpace s'
  end.

End JsString.

(** ** stores/authStore.ts *)
Module AuthStore.

(** [User.role]: the five string literals of the union type. *)
Inductive Role := student | teacher | mentor | counselor | admin.

(** The string a role is at run time. *)
Definition roleName (r : Role) : string :=
  match r with
  | student => "student"
  | teacher => "teacher"
  | mentor => "mentor"
  | counselor => "counselor"
  | admin => "admin"
  end.

Record User := {
  id : nat;
  email : string;
  full_name : string;
  role : Role;
  is_active : bool;
  phone : option string;
  created_at : string
}.

(** The data part of [AuthState]; [None] is [null]. *)
Record AuthState := {
  user : option User;
  accessToken : option string;
  refreshToken : option string;
  isAuthenticated : bool
}.

Definition initial : AuthState :=
  {| user := None; accessToken := None; refreshToken := None;
     isAuthenticated := false |}.

Definition login (u : User) (access refresh : string) (_ : AuthState) : AuthState :=
  {| user := Some u; accessToken := Some access; refreshToken := Some refresh;
     isAuthenticated := true |}.

Definition logout (_ : AuthState) : AuthState := initial.

End AuthStore.

(** ** components/ProtectedRoute.tsx *)
Module Guard.
Import AuthStore.

(** What the component returns: a redirect, the access-denied panel, or
    its children. *)
Inductive Rendered (P : Type) :=
| NavigateTo (to : string)
| AccessDenied
| Children (children : P).
Arguments NavigateTo {P} to.
Arguments AccessDenied {P}.
Arguments Children {P} children.

(** [allowedRoles.includes(user.role)] on an array of strings. *)
Definition rolesInclude (allowedRoles : list string) (r : Role) : bool :=
  existsb (String.eqb (roleName r)) allowedRoles.

Definition ProtectedRoute {P : Type} (auth : AuthState)
    (allowedRoles : list string) (children : P) : Rendered P :=
  match negb (isAuthenticated auth), user auth with
  | true, _ | false, None => NavigateTo "/login"
  | false, Some u =>
      if negb (rolesInclude allowedRoles (role u)) then AccessDenied
      else Children children
  end.

End Guard.

(** ** App.tsx *)
Module App.
Import AuthStore Guard.

Inductive Page :=
| LoginPage | DashboardPage | AssignmentsPage | ChatPage
| StudentsPage | RiskDashboardPage | AdminPage.

(** The [<Route>] the router selects for the current location; the matching
    of a URL against the [path] attributes is the router library's. *)
Inductive Route :=
| RootPath | DashboardPath | AssignmentsPath | ChatPath | StudentsPath
| RiskPath | AdminPath | LoginPath | OtherPath.

(** What [App] returns: bare routes, or routes inside [<Layout>]. *)
Inductive Screen :=
| Bare (element : Rendered Page)
| InLayout (element : Rendered Page).

Definition staff : list string := ["teacher"; "mentor"; "counselor"; "admin"].

Definition App (auth : AuthState) (r : Route) : Screen :=
  if negb (isAuthenticated auth) then
    Bare match r with
         | LoginPath => Children LoginPage
         | _ => NavigateTo "/login"
         end
  else
    InLayout match r with
             | RootPath => NavigateTo "/dashboard"
             | DashboardPath => Children DashboardPage
             | AssignmentsPath => Children AssignmentsPage
             | ChatPath => ProtectedRoute auth ["student"] ChatPage
             | StudentsPath => ProtectedRoute auth staff StudentsPage
             | RiskPath => ProtectedRoute auth staff RiskDashboardPage
             | AdminPath => ProtectedRoute auth ["admin"] AdminPage
             | LoginPath => NavigateTo "/dashboard"
             | OtherPath => NavigateTo "/dashboard"
             end.

End App.

(** ** pages/ChatPage.tsx *)
Module ChatPage.
Import JsString.

Record MessageForm := { message : string }.

(** The argument of [sendMutation.mutate]. *)
Record SendRequest := { req_message : string; isPrivate : bool }.

(** The component state the handlers read and write: the private-mode
    check box, the mutation's pending flag, and the requests handed to
    [sendMutation.mutate] so far (each one is a [chatApi.sendMessage]). *)
Record State := {
  isPrivateMode : bool;
  isPending : bool;
  sent : list SendRequest
}.

Definition mutate (rq : SendRequest) (st : State) : State :=
  {| isPrivateMode := isPrivateMode st; isPending := true;
     sent := sent st ++ [rq] |}.

Definition onSubmit (data : MessageForm) (st : State) : State :=
  if negb (truthy (trim (message data))) then st
  else mutate {| req_message := message data; isPrivate := isPrivateMode st |} st.

(** The [disabled] attribute of the submit button. *)
Definition submitDisabled (messageValue : string) (st : State) : bool :=
  negb (truthy (trim messageValue)) || isPending st.

Definition safetyKeywords : list string :=
  ["harm myself"; "suicide"; "kill myself"; "hurt myself"; "want to die"].

(** The callback given to [some]. *)
Definition keywordMatches (text keyword : string) : bool :=
  includes (toLowerCase text) (toLowerCase keyword).

Definition checkSafetyKeywords (text : string) : bool :=
  existsb (keywordMatches text) safetyKeywords.

End ChatPage.

(** ** pages/StudentsPage.tsx *)
Module StudentsPage.
Import JsString.

(** The fields of a student object the filter reads; [None] is a missing
    ([undefined] or [null]) property. *)
Record UserInfo := { full_name : option string }.
Record RiskInfo := { risk_level : option string }.
Record Student := {
  user : option UserInfo;
  student_id : option string;
  current_risk_score : option RiskInfo
}.

(** A value that is a boolean or [undefined]. *)
Definition JsBool := option bool.

Definition truthyB (v : JsBool) : bool :=
  match v with Some true => true | _ => false end.

(** [a || b] *)
Definition jsOr (a b : JsBool) : JsBool := if truthyB a then a else b.

(** [a && b] *)
Definition jsAnd (a b : JsBool) : JsBool := if truthyB a then b else a.

(** [s?.toLowerCase().includes(term.toLowerCase())]: the whole chain is
    [undefined] when [s] is missing. *)
Definition optIncludes (s : option string) (term : string) : JsBool :=
  match s with
  | None => None
  | Some v => Some (includes (toLowerCase v) (toLowerCase term))
  end.

(** [student.user?.full_name] *)
Definition fullName (st : Student) : option string :=
  match user st with
  | None => None
  | Some u => full_name u
  end.

(** [student.current_risk_score?.risk_level] *)
Definition riskLevel (st : Student) : option string :=
  match current_risk_score st with
  | None => None
  | Some r => risk_level r
  end.

Definition matchesSearch (searchTerm : string) (st : Student) : JsBool :=
  jsOr (optIncludes (fullName st) searchTerm)
       (optIncludes (student_id st) searchTerm).

(** [x?.risk_level === selectedRisk]: [undefined] equals no string. *)
Definition riskEquals (st : Student) (selectedRisk : string) : bool :=
  match riskLevel st with
  | None => false
  | Some l => String.eqb l selectedRisk
  end.

Definition matchesRisk (selectedRisk : string) (st : Student) : bool :=
  negb (truthy selectedRisk) || riskEquals st selectedRisk.

(** The callback of [students?.filter]. *)
Definition keep (searchTerm selectedRisk : string) (st : Student) : JsBool :=
  jsAnd (matchesSearch searchTerm st) (Some (matchesRisk selectedRisk st)).

Definition filteredStudents (students : option (list Student))
    (searchTerm selectedRisk : string) : option (list Student) :=
  match students with
  | None => None
  | Some l => Some (List.filter (fun st => truthyB (keep searchTerm selectedRisk st)) l)
  end.

(** The search term occurs, case-insensitively, in the student's full name
    or in the student id. *)
Definition NameOrIdContains (searchTerm : string) (st : Student) : Prop :=
  (exists n, fullName st = Some n /\
     Substring (toLowerCase searchTerm) (toLowerCase n)) \/
  (exists i, student_id st = Some i /\
     Substring (toLowerCase searchTerm) (toLowerCase i)).

(** No risk level is selected, or the student's current one is the
    selected one. *)
Definition RiskSelected (selectedRisk : string) (st : Student) : Prop :=
  selectedRisk = EmptyString \/ riskLevel st = Some selectedRisk.

End StudentsPage.

(** ** The persistence collaborator: chat messages and SOS incidents *)
Module Backend.

(** Modelled from the spec: the server's data model (section 3) is not
    among the sources; a ChatMessage holds its sender, text, privacy flag,
    flagged-for-SOS marker and creation time (here in days).  The field
    names are those ChatPage.tsx reads. *)
Record ChatMessage := {
  id : nat;
  user_id : nat;
  message : string;
  is_private : bool;
  flagged_for_sos : bool;
  created_at : Z
}.

Inductive IncidentStatus := open | acknowledged | resolved.

(** Modelled from the spec: an SOSIncident references the triggering
    student, the matched keywords, a status, a counselor-notified flag,
    optional notes and its creation time.  The field names are those
    AdminPage.tsx reads. *)
Record SOSIncident := {
  student_id : nat;
  trigger_keywords : list string;
  status : IncidentStatus;
  counselor_notified : bool;
  notes : option string;
  incident_created_at : Z
}.

(** Modelled from the spec: what the persistence collaborator stores for
    the chat: messages, appended in order, and incidents. *)
Record Server := {
  messages : list ChatMessage;
  incidents : list SOSIncident
}.

(** Modelled from the spec: [chatApi.getMessages] of lib/api.ts (absent)
    reads the stored messages, the last [limit] of them when a limit is
    given; a read writes nothing. *)
Definition getMessages (limit : option nat) (srv : Server) : Server * list ChatMessage :=
  (srv,
   match limit with
   | None => messages srv
   | Some n => skipn (length (messages srv) - n) (messages srv)
   end).

(** A message is older than the retention window at time [now]. *)
Definition expired (window now : Z) (m : ChatMessage) : bool :=
  (created_at m + window <? now)%Z.

(** Modelled from the spec: the retention rule, delete what is expired and
    not flagged; the job itself is not among the sources. *)
Definition retentionCleanup (window now : Z) (srv : Server) : Server :=
  {| messages :=
       List.filter (fun m => flagged_for_sos m || negb (expired window now m))
                   (messages srv);
     incidents := incidents srv |}.

End Backend.

(** ** pages/AdminPage.tsx *)
Module AdminPage.
Import Backend.

Inductive Toast := ToastSuccess (text : string) | ToastError (text : string).

(** What the page's action touches: the server and the toasts shown. *)
Record World := { server : Server; toasts : list Toast }.

(** [cleanupMutation.mutate()] when the request resolves: [mutationFn] is
    [() => chatApi.getMessages()], then [onSuccess] shows the toast. *)
Definition cleanupMutation (w : World) : World :=
  let '(srv, _) := getMessages None (server w) in
  {| server := srv;
     toasts := toasts w ++ [ToastSuccess "Expired messages cleaned up"] |}.

End AdminPage.

(** ** The safety monitor on the message-send path *)
Module SafetyMonitor.
Import JsString Backend.

(** Modelled from the spec: the monitor (section 4.2) is not among the
    sources.  It matches the text case-insensitively, by substring, with the
    same test as the page's [keywordMatches], against a configured keyword
    list, and collects the matched keywords. *)
Definition matchedKeywords (keywords : list string) (text : string) : list string :=
  List.filter (ChatPage.keywordMatches text) keywords.

(** The monitor's verdict on one message. *)
Record Verdict := { flagged : bool; matched : list string }.

(** Modelled from the spec: on a match the message is flagged and an open
    SOSIncident referencing the sender is created; on no match nothing is
    written. *)
Definition evaluate (keywords : list string) (now : Z) (sender : nat)
    (msg : string) (srv : Server) : Server * Verdict :=
  match matchedKeywords keywords msg with
  | [] => (srv, {| flagged := false; matched := [] |})
  | k :: ks =>
      ({| messages := messages srv;
          incidents := incidents srv ++
            [{| student_id := sender; trigger_keywords := k :: ks;
                status := open; counselor_notified := false;
                notes := None; incident_created_at := now |}] |},
       {| flagged := true; matched := k :: ks |})
  end.

(** Modelled from the spec: the send path runs the monitor, then appends
    the message with the marker the monitor decided. *)
Definition sendMessage (keywords : list string) (now : Z) (sender : nat)
    (msg : string) (private : bool) (srv : Server) : Server :=
  let '(srv1, v) := evaluate keywords now sender msg srv in
  {| messages := messages srv1 ++
       [{| id := length (messages srv1); user_id := sender; message := msg;
           is_private := private; flagged_for_sos := flagged v;
           created_at := now |}];
     incidents := incidents srv1 |}.

End SafetyMonitor.

(** ** The risk scorer *)
Module RiskScorer.

Inductive RiskLevel := red | amber | green.

(** The order red < amber < green. *)
Definition levelRank (l : RiskLevel) : nat :=
  match l with red => 0 | amber => 1 | green => 2 end.

Local Open Scope Q_scope.

(** Modelled from the spec: the configuration surface (section 6): score
    weights, risk thresholds and the normalisation thresholds. *)
Record Config := {
  w_attendance : Q;
  w_test : Q;
  w_fee : Q;
  w_chat : Q;
  green_threshold : Q;
  amber_threshold : Q;
  fee_threshold : Q;
  chat_threshold : Q
}.

(** Modelled from the spec: a student's signal snapshot: attendance as
    present days out of recorded days, normalised academic performance,
    overdue fee amount, number of chat flags. *)
Record Signals := {
  present_days : nat;
  total_days : nat;
  academic : Q;
  overdue_amount : Q;
  chat_flags : nat
}.

(** Modelled from the spec: a RiskScore: four component scores, the
    overall score, the level and the calculation time.  The field names are
    those RiskDashboardPage.tsx reads; rationals stand for the numbers. *)
Record RiskScore := {
  attendance_score : Q;
  test_score : Q;
  fee_score : Q;
  chat_score : Q;
  overall_score : Q;
  risk_level : RiskLevel;
  calculated_at : Z
}.

Definition ofNat (n : nat) : Q := inject_Z (Z.of_nat n).

(** Clipping to [0,1]. *)
Definition clip (x : Q) : Q :=
  if Qle_bool x 0 then 0 else if Qle_bool 1 x then 1 else x.

(** Modelled from the spec: attendance score = present-days / total-days,
    clipped to [0,1]. *)
Definition attendanceScore (s : Signals) : Q :=
  clip (ofNat (present_days s) / ofNat (total_days s)).

(** Modelled from the spec: the academic signal is already normalised. *)
Definition testScore (s : Signals) : Q := clip (academic s).

(** Modelled from the spec: fee score = 1 - min(1, overdue-amount/threshold). *)
Definition feeScore (c : Config) (s : Signals) : Q :=
  clip (1 - Qmin 1 (overdue_amount s / fee_threshold c)).

(** Modelled from the spec: the spec names no formula for the chat
    component; it is normalised like the fee component, so that no flag
    gives the full score: 1 - min(1, flag-count/threshold). *)
Definition chatScore (c : Config) (s : Signals) : Q :=
  clip (1 - Qmin 1 (ofNat (chat_flags s) / chat_threshold c)).

(** Modelled from the spec: the weighted combination of four components. *)
Definition weighted (c : Config) (a t f h : Q) : Q :=
  w_attendance c * a + w_test c * t + w_fee c * f + w_chat c * h.

(** Modelled from the spec: overall >= green-threshold is green, else
    >= amber-threshold is amber, else red. *)
Definition classify (c : Config) (overall : Q) : RiskLevel :=
  if Qle_bool (green_threshold c) overall then green
  else if Qle_bool (amber_threshold c) overall then amber
  else red.

(** Modelled from the spec: one student's computation; a student with no
    attendance records fails with a reason and no score is made up. *)
Definition calculate (c : Config) (now : Z) (s : Signals) : RiskScore + string :=
  if Nat.eqb (total_days s) 0%nat then inr "missing attendance data"
  else
    let a := attendanceScore s in
    let t := testScore s in
    let f := feeScore c s in
    let h := chatScore c s in
    let o := weighted c a t f h in
    inl {| attendance_score := a; test_score := t; fee_score := f;
           chat_score := h; overall_score := o; risk_level := classify c o;
           calculated_at := now |}.


(** The configuration of the spec's scenario: weights [0.3,0.3,0.2,0.2],
    green at 0.75, amber at 0.5; the scenario leaves the two normalisation
    thresholds open. *)
Definition scenarioConfigWith (feeT chatT : Q) : Config :=
  {| w_attendance := 3 # 10; w_test := 3 # 10; w_fee := 2 # 10; w_chat := 2 # 10;
     green_threshold := 75 # 100; amber_threshold := 5 # 10;
     fee_threshold := feeT; chat_threshold := chatT |}.

(** The scenario's configuration with an overdue amount of 1000 and five
    chat flags as the points where those components reach 0. *)
Definition scenarioConfig : Config := scenarioConfigWith 1000 5.

(** The snapshot of the spec's scenario: 18 of 20 days, academic 0.82, no
    overdue fees, no chat flags. *)
Definition scenarioSignals : Signals :=
  {| present_days := 18; total_days := 20; academic := 82 # 100;
     overdue_amount := 0; chat_flags := 0 |}.



(** *** Recompute all *)

(** Modelled from the spec: a student as the batch sees it: active or not,
    and the current signal snapshot. *)
Record StudentRow := { is_active : bool; signals : Signals }.

(** Modelled from the spec: the persistence collaborator: students by id,
    and the current RiskScore of a student by id. *)
Record Store := {
  students : gmap nat StudentRow;
  scores : gmap nat RiskScore
}.

(** Modelled from the spec: the batch report: counts of successes and of
    failures, and the failed students with the reason. *)
Record Report := {
  succeeded : nat;
  failed : nat;
  failures : list (nat * string)
}.

Definition emptyReport : Report :=
  {| succeeded := 0%nat; failed := 0%nat; failures := [] |}.

(** One student of the batch: a success supersedes the stored score, a
    failure is recorded and the batch goes on. *)
Definition recomputeOne (c : Config) (now : Z)
    (acc : gmap nat RiskScore * Report) (entry : nat * StudentRow)
    : gmap nat RiskScore * Report :=
  let '(sc, rep) := acc in
  match calculate c now (signals entry.2) with
  | inl r =>
      (<[entry.1 := r]> sc,
       {| succeeded := S (succeeded rep); failed := failed rep;
          failures := failures rep |})
  | inr reason =>
      (sc,
       {| succeeded := succeeded rep; failed := S (failed rep);
          failures := failures rep ++ [(entry.1, reason)] |})
  end.

(** The active students, each once. *)
Definition activeStudents (st : Store) : list (nat * StudentRow) :=
  filter (fun e => is_active e.2 = true) (map_to_list (students st)).

(** Modelled from the spec: recompute all: every active student once. *)
Definition recomputeAll (c : Config) (now : Z) (st : Store) : Store * Report :=
  let '(sc, rep) := foldl (recomputeOne c now) (scores st, emptyReport) (activeStudents st) in
  ({| students := students st; scores := sc |}, rep).

(** The computation succeeds for this entry. *)
Definition succeeds (c : Config) (now : Z) (e : nat * StudentRow) : bool :=
  match calculate c now (signals e.2) with
  | inl _ => true
  | inr _ => false
  end.

(** The failing entries of a list with their reasons, in order. *)
Definition failuresOf (c : Config) (now : Z) (l : list (nat * StudentRow))
    : list (nat * string) :=
  omap (fun e => match calculate c now (signals e.2) with
                 | inl _ => None
                 | inr reason => Some (e.1, reason)
                 end) l.

End RiskScorer.

(** ** stores/authStore.ts: updating the user, and runs of the store *)
Module AuthStoreUpdate.
Import AuthStore.

(** [Partial<User>]: [None] is a key that is not given. *)
Record PartialUser := {
  p_id : option nat;
  p_email : option string;
  p_full_name : option string;
  p_role : option Role;
  p_is_active : option bool;
  p_phone : option string;
  p_created_at : option string
}.

Definition noChange : PartialUser :=
  {| p_id := None; p_email := None; p_full_name := None; p_role := None;
     p_is_active := None; p_phone := None; p_created_at := None |}.

(** One key of [{ ...a, ...b }]: the later object wins where it has the key. *)
Definition spread {A : Type} (a : A) (b : option A) : A :=
  match b with
  | Some v => v
  | None => a
  end.

(** [{ ...currentUser, ...userData }] *)
Definition merge (u : User) (p : PartialUser) : User :=
  {| id := spread (id u) (p_id p);
     email := spread (email u) (p_email p);
     full_name := spread (full_name u) (p_full_name p);
     role := spread (role u) (p_role p);
     is_active := spread (is_active u) (p_is_active p);
     phone := match p_phone p with Some v => Some v | None => phone u end;
     created_at := spread (created_at u) (p_created_at p) |}.

Definition updateUser (userData : PartialUser) (st : AuthState) : AuthState :=
  match user st with
  | Some currentUser =>
      {| user := Some (merge currentUser userData);
         accessToken := accessToken st; refreshToken := refreshToken st;
         isAuthenticated := isAuthenticated st |}
  | None => st
  end.

(** [{ ...a, ...b }] on two partial objects. *)
Definition overlay (a b : PartialUser) : PartialUser :=
  {| p_id := match p_id b with Some v => Some v | None => p_id a end;
     p_email := match p_email b with Some v => Some v | None => p_email a end;
     p_full_name := match p_full_name b with Some v => Some v | None => p_full_name a end;
     p_role := match p_role b with Some v => Some v | None => p_role a end;
     p_is_active := match p_is_active b with Some v => Some v | None => p_is_active a end;
     p_phone := match p_phone b with Some v => Some v | None => p_phone a end;
     p_created_at := match p_created_at b with Some v => Some v | None => p_created_at a end |}.

(** The three actions of the store. *)
Inductive Action :=
| Login (u : User) (access refresh : string)
| Logout
| UpdateUser (userData : PartialUser).

Definition act (st : AuthState) (a : Action) : AuthState :=
  match a with
  | Login u access refresh => login u access refresh st
  | Logout => logout st
  | UpdateUser p => updateUser p st
  end.

(** The store after a sequence of actions from its initial state. *)
Definition run (actions : list Action) : AuthState := foldl act initial actions.

Definition isSome {A : Type} (o : option A) : bool :=
  match o with Some _ => true | None => false end.

(** Logged in means: a user and both tokens; logged out means: none. *)
Definition Consistent (st : AuthState) : Prop :=
  isSome (user st) = isAuthenticated st /\
  isSome (accessToken st) = isAuthenticated st /\
  isSome (refreshToken st) = isAuthenticated st.

End AuthStoreUpdate.

(** ** components/Layout.tsx *)
Module Layout.
Import AuthStore Guard App.

Record NavItem := { name : string; href : string; roles : list string }.

Definition navigation : list NavItem :=
  [ {| name := "Dashboard"; href := "/dashboard";
       roles := ["student"; "teacher"; "mentor"; "counselor"; "admin"] |};
    {| name := "Assignments"; href := "/assignments";
       roles := ["student"; "teacher"; "admin"] |};
    {| name := "Chat"; href := "/chat"; roles := ["student"] |};
    {| name := "Students"; href := "/students";
       roles := ["teacher"; "mentor"; "counselor"; "admin"] |};
    {| name := "Risk Dashboard"; href := "/risk";
       roles := ["teacher"; "mentor"; "counselor"; "admin"] |};
    {| name := "Admin"; href := "/admin"; roles := ["admin"] |} ].

(** [user && item.roles.includes(user.role)], as the filter reads it. *)
Definition shownTo (user : option User) (item : NavItem) : bool :=
  match user with
  | None => false
  | Some u => rolesInclude (roles item) (role u)
  end.

Definition filteredNavigation (user : option User) : list NavItem :=
  List.filter (shownTo user) navigation.

(** The route of [App] that a link target selects, for the targets that are
    literally a [path] attribute; every other location is left to the
    catch-all. *)
Definition routeOf (pathname : string) : Route :=
  if String.eqb pathname "/" then RootPath
  else if String.eqb pathname "/dashboard" then DashboardPath
  else if String.eqb pathname "/assignments" then AssignmentsPath
  else if String.eqb pathname "/chat" then ChatPath
  else if String.eqb pathname "/students" then StudentsPath
  else if String.eqb pathname "/risk" then RiskPath
  else if String.eqb pathname "/admin" then AdminPath
  else if String.eqb pathname "/login" then LoginPath
  else OtherPath.

End Layout.

(** ** StudentsPage.tsx: the grid *)
Module StudentsGrid.
Import JsString StudentsPage.

(** What the grid shows: one card per listed student, or the panel
    "No students found" with its hint. *)
Inductive Grid :=
| Cards (students : list Student)
| NoStudentsFound (hint : string).

(** [filteredStudents?.map(card) || panel]: an array, empty or not, is
    truthy. *)
Definition grid (students : option (list Student))
    (searchTerm selectedRisk : string) : Grid :=
  match filteredStudents students searchTerm selectedRisk with
  | Some l => Cards l
  | None =>
      NoStudentsFound
        (if truthy searchTerm || truthy selectedRisk
         then "Try adjusting your filters"
         else "No students have been added yet")
  end.

End StudentsGrid.

(** * Properties *)

(** ** Strings *)
Section StringFacts.
Import JsString.

Lemma append_assoc (a b c : string) : (a +:+ b) +:+ c = a +:+ b +:+ c.
Proof.
  induction a as [|x a IH]; [reflexivity|].
  change (String x ((a +:+ b) +:+ c) = String x (a +:+ b +:+ c)). now f_equal.
Qed.

Lemma toLowerCase_append (a b : string) :
  toLowerCase (a +:+ b) = toLowerCase a +:+ toLowerCase b.
Proof.
  induction a as [|c a IH]; simpl; [reflexivity|]. now rewrite IH.
Qed.

Lemma startsWith_spec (s p : string) :
  startsWith s p = true <-> exists post, s = p +:+ post.
Proof.
  revert s. induction p as [|c p IH]; intros s; simpl.
  - split; [intros _; now exists s | reflexivity].
  - destruct s as [|d s].
    + split; [discriminate | intros [post H]; discriminate].
    + rewrite andb_true_iff, Ascii.eqb_eq, IH. split.
      * intros [-> [post ->]]. now exists post.
      * intros [post H]. injection H as -> ->. split; [reflexivity | now exists post].
Qed.

Lemma includes_spec (s p : string) :
  includes s p = true <-> Substring p s.
Proof.
  unfold Substring. induction s as [|d s IH].
  - simpl. rewrite orb_false_r, startsWith_spec. split.
    + intros [post H]. now exists EmptyString, post.
    + intros [pre [post H]]. destruct pre; [now exists post | discriminate].
  - cbn [includes]. rewrite orb_true_iff, startsWith_spec, IH. split.
    + intros [[post H] | [pre [post H]]].
      * now exists EmptyString, post.
      * exists (String d pre), post. simpl. now rewrite H.
    + intros [pre [post H]]. destruct pre as [|e pre].
      * left. now exists post.
      * right. simpl in H. injection H as _ H. now exists pre, post.
Qed.

Lemma includes_empty_needle (s : string) : includes s EmptyString = true.
Proof. destruct s; reflexivity. Qed.


Lemma trimStart_whitespace (s : string) :
  AllWhiteSpace s -> trimStart s = EmptyString.
Proof.
  induction s as [|c s IH]; simpl; [reflexivity|].
  intros [Hc Hs]. rewrite Hc. now apply IH.
Qed.

Lemma trim_whitespace (s : string) :
  AllWhiteSpace s -> trim s = EmptyString.
Proof. intros H. unfold trim. now rewrite trimStart_whitespace. Qed.

Lemma trimEnd_empty_inv (s : string) :
  trimEnd s = EmptyString -> AllWhiteSpace s.
Proof.
  induction s as [|c s IH]; simpl; [trivial|].
  destruct (trimEnd s) eqn:E; [|discriminate].
  destruct (isWhiteSpace c) eqn:Hc; [|discriminate].
  intros _. split; [reflexivity | now apply IH].
Qed.

Lemma trimStart_head (s : string) :
  match trimStart s with
  | EmptyString => AllWhiteSpace s
  | String c _ => isWhiteSpace c = false
  end.
Proof.
  induction s as [|c s IH]; simpl; [trivial|].
  destruct (isWhiteSpace c) eqn:Hc; simpl.
  - destruct (trimStart s); [split; [reflexivity | assumption] | assumption].
  - assumption.
Qed.

Lemma trim_empty_iff (s : string) :
  trim s = EmptyString <-> AllWhiteSpace s.
Proof.
  split; [|apply trim_whitespace].
  unfold trim. intros H. pose proof (trimStart_head s) as Hh.
  destruct (trimStart s) as [|c r]; [assumption|].
  apply trimEnd_empty_inv in H. simpl in H. destruct H as [Hc _]. congruence.
Qed.

Lemma Substring_lower (p s : string) :
  Substring p s -> Substring (toLowerCase p) (toLowerCase s).
Proof.
  intros [pre [post ->]]. exists (toLowerCase pre), (toLowerCase post).
  now rewrite !toLowerCase_append.
Qed.

Lemma Substring_trans (a b c : string) :
  Substring a b -> Substring b c -> Substring a c.
Proof.
  intros [p1 [q1 ->]] [p2 [q2 ->]]. exists (p2 +:+ p1), (q1 +:+ q2).
  now rewrite !append_assoc.
Qed.

End StringFacts.

(** ** The chat page *)
Section ChatPageFacts.
Import JsString ChatPage.

Lemma keywordMatches_spec (text keyword : string) :
  keywordMatches text keyword = true <->
  Substring (toLowerCase keyword) (toLowerCase text).
Proof. unfold keywordMatches. apply includes_spec. Qed.

Lemma checkSafetyKeywords_spec (text : string) :
  checkSafetyKeywords text = true <->
  exists keyword, In keyword safetyKeywords /\
    Substring (toLowerCase keyword) (toLowerCase text).
Proof.
  unfold checkSafetyKeywords. rewrite existsb_exists.
  split; intros [k [Hin Hk]]; exists k; split; try assumption;
    now apply keywordMatches_spec.
Qed.

(** C1. The safety-keyword check is case-insensitive and substring-based:
    it returns true exactly when the lowercased text contains the lowercased
    form of some keyword of the list; a message containing "I want to DIE"
    passes the test for keyword "die" and is reported by the check. *)
Theorem checkSafetyKeywords_case_insensitive_substring :
  (forall text : string,
     checkSafetyKeywords text = true <->
     exists keyword, In keyword safetyKeywords /\
       Substring (toLowerCase keyword) (toLowerCase text)) /\
  (forall pre post : string,
     keywordMatches (pre +:+ "I want to DIE" +:+ post) "die" = true /\
     checkSafetyKeywords (pre +:+ "I want to DIE" +:+ post) = true).
Proof.
  split; [apply checkSafetyKeywords_spec|].
  intros pre post.
  assert (Hsub : Substring "want to die"
                   (toLowerCase (pre +:+ "I want to DIE" +:+ post))).
  { apply (Substring_lower "want to DIE").
    exists (pre +:+ "I "), post. now rewrite append_assoc. }
  split.
  - apply keywordMatches_spec.
    apply Substring_trans with (b := "want to die"); [|exact Hsub].
    now exists "want to ", "".
  - apply checkSafetyKeywords_spec. exists "want to die". split; [|exact Hsub].
    simpl. tauto.
Qed.

Example checkSafetyKeywords_upper :
  checkSafetyKeywords "I want to DIE" = true.
Proof. reflexivity. Qed.

Example checkSafetyKeywords_plain :
  checkSafetyKeywords "see you at the diet club" = false.
Proof. reflexivity. Qed.

Lemma onSubmit_sends (data : MessageForm) (st : State) :
  ~ AllWhiteSpace (message data) ->
  sent (onSubmit data st) =
  sent st ++ [{| req_message := message data; isPrivate := isPrivateMode st |}].
Proof.
  intros H. unfold onSubmit.
  destruct (trim (message data)) eqn:E; simpl; [|reflexivity].
  exfalso. apply H. now apply trim_empty_iff.
Qed.

(** C9. A message that is empty or only white space is never sent: the
    submit handler returns the state as it was, without a call of the send
    mutation, and the submit button is disabled for such input. *)
Theorem onSubmit_whitespace_not_sent (data : MessageForm) (st : State) :
  AllWhiteSpace (message data) ->
  onSubmit data st = st /\
  sent (onSubmit data st) = sent st /\
  submitDisabled (message data) st = true.
Proof.
  intros H. apply trim_whitespace in H.
  unfold onSubmit, submitDisabled. rewrite H. simpl. auto.
Qed.

Lemma onSubmit_whitespace_not_sent_witness :
  let st := {| isPrivateMode := true; isPending := false; sent := [] |} in
  let data := {| message := "  " +:+ String "009"%char "" |} in
  AllWhiteSpace (message data) /\
  onSubmit data st = st /\
  sent (onSubmit data st) = sent st /\
  submitDisabled (message data) st = true.
Proof.
  intros st data.
  assert (H : AllWhiteSpace (message data)) by (simpl; auto).
  split; [exact H | exact (onSubmit_whitespace_not_sent data st H)].
Defined.

End ChatPageFacts.

(** ** The route guard *)
Section GuardFacts.
Import AuthStore Guard App.

Lemma rolesInclude_spec (allowedRoles : list string) (r : Role) :
  rolesInclude allowedRoles r = true <-> In (roleName r) allowedRoles.
Proof.
  unfold rolesInclude. rewrite existsb_exists. split.
  - intros [x [Hin Hx]]. apply String.eqb_eq in Hx. now subst.
  - intros Hin. exists (roleName r). split; [assumption | apply String.eqb_refl].
Qed.

Lemma roleName_student (r : Role) : roleName r = "student" -> r = student.
Proof. destruct r; simpl; intros H; (reflexivity || discriminate H). Qed.

Lemma ProtectedRoute_children {P : Type} (auth : AuthState)
    (allowedRoles : list string) (c d : P) :
  ProtectedRoute auth allowedRoles c = Children d ->
  d = c /\ exists u, user auth = Some u /\ isAuthenticated auth = true /\
    In (roleName (role u)) allowedRoles.
Proof.
  unfold ProtectedRoute.
  destruct (isAuthenticated auth) eqn:Ha; simpl; [|discriminate].
  destruct (user auth) as [u|] eqn:Hu; [|discriminate].
  destruct (rolesInclude allowedRoles (role u)) eqn:Hr; simpl; [|discriminate].
  intros H. injection H as <-. split; [reflexivity|]. exists u.
  repeat split; try reflexivity. now apply rolesInclude_spec.
Qed.

(** C8. A guarded route renders its content exactly when there is an
    authenticated user whose role is in the allowed list; without an
    authenticated user the guard redirects to the login route, and with a
    role outside the list it shows the access-denied view; the chat page is
    rendered only for a user with role student. *)
Theorem ProtectedRoute_renders_iff_allowed :
  (forall (P : Type) (auth : AuthState) (allowedRoles : list string) (c : P),
     (ProtectedRoute auth allowedRoles c = Children c <->
      exists u, user auth = Some u /\ isAuthenticated auth = true /\
        In (roleName (role u)) allowedRoles) /\
     (isAuthenticated auth = false \/ user auth = None ->
      ProtectedRoute auth allowedRoles c = NavigateTo "/login") /\
     (forall u, isAuthenticated auth = true -> user auth = Some u ->
        ~ In (roleName (role u)) allowedRoles ->
        ProtectedRoute auth allowedRoles c = AccessDenied)) /\
  (forall (auth : AuthState) (r : Route),
     App auth r = InLayout (Children ChatPage) \/
     App auth r = Bare (Children ChatPage) ->
     r = ChatPath /\
     exists u, user auth = Some u /\ isAuthenticated auth = true /\
       role u = student).
Proof.
  split.
  - intros P auth allowedRoles c. repeat split.
    + intros H. now apply ProtectedRoute_children in H as [_ H].
    + intros [u [Hu [Ha Hin]]]. unfold ProtectedRoute. rewrite Ha, Hu. simpl.
      apply rolesInclude_spec in Hin. now rewrite Hin.
    + unfold ProtectedRoute. intros [Ha | Hu].
      * now rewrite Ha.
      * rewrite Hu. now destruct (isAuthenticated auth).
    + intros u Ha Hu Hn. unfold ProtectedRoute. rewrite Ha, Hu. simpl.
      destruct (rolesInclude allowedRoles (role u)) eqn:Hr; [|reflexivity].
      exfalso. apply Hn. now apply rolesInclude_spec.
  - intros auth r. unfold App.
    destruct (isAuthenticated auth) eqn:Ha; simpl.
    + intros [H | H]; [|discriminate].
      injection H as H. destruct r; try discriminate H;
        apply ProtectedRoute_children in H as [Hd [u [Hu [_ Hin]]]];
        try discriminate Hd.
      split; [reflexivity|]. exists u. repeat split; try assumption.
      simpl in Hin. destruct Hin as [Hin | []].
      apply roleName_student. now symmetry.
    + intros [H | H]; [discriminate|].
      injection H as H. destruct r; discriminate H.
Qed.

Lemma ProtectedRoute_renders_iff_allowed_witness :
  let u := {| id := 1; email := "s@school.edu"; full_name := "S";
              role := student; is_active := true; phone := None;
              created_at := "2024-01-01" |} in
  let auth := login u "a" "r" initial in
  ProtectedRoute auth ["student"] ChatPage = Children ChatPage /\
  ProtectedRoute initial ["student"] ChatPage = NavigateTo "/login" /\
  ProtectedRoute auth ["admin"] AdminPage = AccessDenied /\
  App auth ChatPath = InLayout (Children ChatPage).
Proof.
  intros u auth.
  pose proof (proj1 ProtectedRoute_renders_iff_allowed) as G.
  split; [|split; [|split]].
  - apply (G Page auth ["student"] ChatPage). exists u.
    repeat split. simpl. tauto.
  - apply (G Page initial ["student"] ChatPage). left. reflexivity.
  - apply (proj2 (proj2 (G Page auth ["admin"] AdminPage)) u);
      [reflexivity | reflexivity |].
    simpl. intros [H | []]. discriminate H.
  - reflexivity.
Defined.

End GuardFacts.

(** ** The students list *)
Section StudentsPageFacts.
Import JsString StudentsPage.

Lemma optIncludes_true (s : option string) (term : string) :
  truthyB (optIncludes s term) = true <->
  exists v, s = Some v /\ Substring (toLowerCase term) (toLowerCase v).
Proof.
  destruct s as [v|]; simpl.
  - destruct (includes (toLowerCase v) (toLowerCase term)) eqn:E.
    + split; [intros _|reflexivity]. exists v. split; [reflexivity|].
      now apply includes_spec.
    + split; [discriminate|]. intros [w [Hw Hs]]. injection Hw as <-.
      apply includes_spec in Hs. congruence.
  - split; [discriminate | intros [v [Hv _]]; discriminate].
Qed.

Lemma jsOr_true (a b : JsBool) :
  truthyB (jsOr a b) = true <-> truthyB a = true \/ truthyB b = true.
Proof.
  unfold jsOr. destruct (truthyB a) eqn:Ea.
  - rewrite Ea. tauto.
  - split; [tauto | intros [H | H]; [discriminate | assumption]].
Qed.

Lemma jsAnd_true (a b : JsBool) :
  truthyB (jsAnd a b) = true <-> truthyB a = true /\ truthyB b = true.
Proof.
  unfold jsAnd. destruct (truthyB a) eqn:Ea.
  - tauto.
  - rewrite Ea. split; [discriminate | intros [H _]; discriminate].
Qed.

Lemma matchesSearch_spec (searchTerm : string) (st : Student) :
  truthyB (matchesSearch searchTerm st) = true <-> NameOrIdContains searchTerm st.
Proof.
  unfold matchesSearch, NameOrIdContains.
  now rewrite jsOr_true, !optIncludes_true.
Qed.

Lemma matchesRisk_spec (selectedRisk : string) (st : Student) :
  matchesRisk selectedRisk st = true <-> RiskSelected selectedRisk st.
Proof.
  unfold matchesRisk, RiskSelected, riskEquals. rewrite orb_true_iff.
  assert (H1 : negb (truthy selectedRisk) = true <-> selectedRisk = EmptyString).
  { destruct selectedRisk; simpl; split; (reflexivity || discriminate). }
  rewrite H1. destruct (riskLevel st) as [l|].
  - rewrite String.eqb_eq. split; (intros [H | H]; [now left | right]).
    + now subst.
    + now injection H.
  - split; (intros [H | H]; [now left | discriminate]).
Qed.

Lemma keep_spec (searchTerm selectedRisk : string) (st : Student) :
  truthyB (keep searchTerm selectedRisk st) = true <->
  NameOrIdContains searchTerm st /\ RiskSelected selectedRisk st.
Proof.
  unfold keep. rewrite jsAnd_true, matchesSearch_spec. simpl.
  rewrite <- matchesRisk_spec.
  destruct (matchesRisk selectedRisk st); tauto.
Qed.

(** C10. The students-list filter is sound and complete: a student is in
    the filtered list exactly when it is in the list, the lowercased search
    term is a substring of its lowercased full name or student id, and no
    risk level is selected or its current risk level is the selected one. *)
Theorem filteredStudents_sound_complete :
  forall (students : list Student) (searchTerm selectedRisk : string),
  exists shown,
    filteredStudents (Some students) searchTerm selectedRisk = Some shown /\
    forall st, In st shown <->
      In st students /\ NameOrIdContains searchTerm st /\
      RiskSelected selectedRisk st.
Proof.
  intros students searchTerm selectedRisk. eexists. split; [reflexivity|].
  intros st. rewrite filter_In, keep_spec. reflexivity.
Qed.

Example filteredStudents_by_name_and_risk :
  let mk n i l := {| user := Some {| full_name := Some n |};
                     student_id := Some i;
                     current_risk_score := Some {| risk_level := Some l |} |} in
  let orphan := {| user := None; student_id := None; current_risk_score := None |} in
  filteredStudents (Some [mk "Asha Rao" "STU001" "red"; mk "Ravi" "STU002" "green"; orphan])
                   "RA" "red"
  = Some [mk "Asha Rao" "STU001" "red"] /\
  filteredStudents (Some [mk "Ravi" "STU002" "green"; orphan]) "" ""
  = Some [mk "Ravi" "STU002" "green"].
Proof. split; reflexivity. Qed.

End StudentsPageFacts.

(** ** Retention cleanup from the admin page *)
Section AdminPageFacts.
Import Backend AdminPage.

Lemma getMessages_reads_only (limit : option nat) (srv : Server) :
  fst (getMessages limit srv) = srv.
Proof. reflexivity. Qed.

Lemma cleanupMutation_server (w : World) :
  server (cleanupMutation w) = server w.
Proof. reflexivity. Qed.

(** The retention rule itself: what it deletes and what it keeps. *)
Lemma retentionCleanup_spec (window now : Z) (srv : Server) (m : ChatMessage) :
  In m (messages (retentionCleanup window now srv)) <->
  In m (messages srv) /\
  (flagged_for_sos m = true \/ (now <= created_at m + window)%Z).
Proof.
  unfold retentionCleanup, expired. simpl.
  rewrite filter_In, orb_true_iff, negb_true_iff, Z.ltb_ge. reflexivity.
Qed.


End AdminPageFacts.

(** ** The safety monitor *)
Section SafetyMonitorFacts.
Import JsString Backend SafetyMonitor.


Lemma matchedKeywords_In (keywords : list string) (msg k : string) :
  In k (matchedKeywords keywords msg) <->
  In k keywords /\ Substring (toLowerCase k) (toLowerCase msg).
Proof.
  unfold matchedKeywords. rewrite filter_In.
  now rewrite keywordMatches_spec.
Qed.




(** The scenario of a match, for contrast: one open incident, one flagged
    message. *)
Example sendMessage_match :
  sendMessage ["harm myself"; "suicide"] 3 7 "I want to harm myself" true
    {| messages := []; incidents := [] |} =
  {| messages := [{| id := 0; user_id := 7; message := "I want to harm myself";
                     is_private := true; flagged_for_sos := true; created_at := 3 |}];
     incidents := [{| student_id := 7; trigger_keywords := ["harm myself"];
                      status := open; counselor_notified := false;
                      notes := None; incident_created_at := 3 |}] |}.
Proof. reflexivity. Qed.

End SafetyMonitorFacts.

(** ** Risk scores *)
Section RiskScoreFacts.
Import RiskScorer.
Local Open Scope Q_scope.

Lemma Qle_bool_false (x y : Q) : Qle_bool x y = false <-> y < x.
Proof.
  rewrite <- not_true_iff_false, Qle_bool_iff. split; intros H; lra.
Qed.


Lemma clip_unit (x : Q) : 0 <= x <= 1 -> clip x == x.
Proof.
  intros H. unfold clip. destruct (Qle_bool x 0) eqn:E0.
  - apply Qle_bool_iff in E0. lra.
  - destruct (Qle_bool 1 x) eqn:E1; [|reflexivity].
    apply Qle_bool_iff in E1. lra.
Qed.






(** The scenario with its chat component left open: the overall score is
    0.716 + 0.2 h, so it is 0.846 only for a chat component of 0.65. *)
Lemma scenario_overall_by_chat (h : Q) :
  weighted scenarioConfig (9 # 10) (82 # 100) 1 h == (716 # 1000) + (2 # 10) * h /\
  (weighted scenarioConfig (9 # 10) (82 # 100) 1 h == 846 # 1000 <-> h == 65 # 100).
Proof.
  unfold weighted, scenarioConfig. simpl. split; [lra|]. split; intros H; lra.
Qed.






Lemma classify_green (c : Config) (s : Q) :
  classify c s = green <-> green_threshold c <= s.
Proof.
  unfold classify. destruct (Qle_bool (green_threshold c) s) eqn:Eg.
  - apply Qle_bool_iff in Eg. tauto.
  - apply Qle_bool_false in Eg.
    split; [destruct (Qle_bool (amber_threshold c) s); discriminate | lra].
Qed.

Lemma classify_amber (c : Config) (s : Q) :
  classify c s = amber <-> s < green_threshold c /\ amber_threshold c <= s.
Proof.
  unfold classify. destruct (Qle_bool (green_threshold c) s) eqn:Eg.
  - apply Qle_bool_iff in Eg. split; [discriminate | lra].
  - apply Qle_bool_false in Eg.
    destruct (Qle_bool (amber_threshold c) s) eqn:Ea.
    + apply Qle_bool_iff in Ea. tauto.
    + apply Qle_bool_false in Ea. split; [discriminate | lra].
Qed.

Lemma classify_red (c : Config) (s : Q) :
  classify c s = red <-> s < green_threshold c /\ s < amber_threshold c.
Proof.
  unfold classify. destruct (Qle_bool (green_threshold c) s) eqn:Eg.
  - apply Qle_bool_iff in Eg. split; [discriminate | lra].
  - apply Qle_bool_false in Eg.
    destruct (Qle_bool (amber_threshold c) s) eqn:Ea.
    + apply Qle_bool_iff in Ea. split; [discriminate | lra].
    + apply Qle_bool_false in Ea. tauto.
Qed.

(** C4. Classification is a threshold function, green from the green
    threshold up, else amber from the amber threshold up, else red, and it
    is monotone: of two overall scores the lower one never gets the better
    level in the order red < amber < green. *)
Theorem classify_threshold_monotone (c : Config) (s1 s2 : Q) :
  s1 <= s2 ->
  (classify c s1 = green <-> green_threshold c <= s1) /\
  (classify c s1 = amber <-> s1 < green_threshold c /\ amber_threshold c <= s1) /\
  (classify c s1 = red <-> s1 < green_threshold c /\ s1 < amber_threshold c) /\
  (levelRank (classify c s1) <= levelRank (classify c s2))%nat.
Proof.
  intros H.
  split; [apply classify_green|]. split; [apply classify_amber|].
  split; [apply classify_red|].
  destruct (classify c s1) eqn:E1; simpl; [lia | |].
  - apply classify_amber in E1. destruct (classify c s2) eqn:E2; simpl; try lia.
    apply classify_red in E2. lra.
  - apply classify_green in E1.
    assert (E2 : classify c s2 = green) by (apply classify_green; lra).
    rewrite E2. simpl. lia.
Qed.

Lemma classify_threshold_monotone_witness :
  (4 # 10) <= (8 # 10) /\
  (levelRank (classify scenarioConfig (4 # 10)) <=
   levelRank (classify scenarioConfig (8 # 10)))%nat.
Proof.
  assert (H : (4 # 10) <= (8 # 10)) by lra.
  split; [exact H|].
  exact (proj2 (proj2 (proj2 (classify_threshold_monotone scenarioConfig _ _ H)))).
Defined.

Example classify_levels :
  classify scenarioConfig (4 # 10) = red /\
  classify scenarioConfig (5 # 10) = amber /\
  classify scenarioConfig (749 # 1000) = amber /\
  classify scenarioConfig (75 # 100) = green.
Proof. repeat split. Qed.

End RiskScoreFacts.

(** ** Recompute all *)
Section RecomputeAllFacts.
Import RiskScorer.
Context (c : Config) (now : Z).

Lemma recomputeOne_report (sc : gmap nat RiskScore) (rep : Report)
    (e : nat * StudentRow) :
  (recomputeOne c now (sc, rep) e).2 =
  {| succeeded := succeeded rep + (if succeeds c now e then 1 else 0);
     failed := failed rep + length (failuresOf c now [e]);
     failures := failures rep ++ failuresOf c now [e] |}.
Proof.
  unfold recomputeOne, succeeds, failuresOf. simpl.
  destruct (calculate c now (signals e.2)); simpl; f_equal; try lia.
  now rewrite app_nil_r.
Qed.

Lemma failuresOf_cons (e : nat * StudentRow) (l : list (nat * StudentRow)) :
  failuresOf c now (e :: l) = failuresOf c now [e] ++ failuresOf c now l.
Proof. unfold failuresOf. apply (omap_app _ [e] l). Qed.

Lemma foldl_report (l : list (nat * StudentRow)) :
  forall (sc : gmap nat RiskScore) (rep : Report),
  (foldl (recomputeOne c now) (sc, rep) l).2 =
  {| succeeded := succeeded rep + length (filter (fun e => succeeds c now e = true) l);
     failed := failed rep + length (failuresOf c now l);
     failures := failures rep ++ failuresOf c now l |}.
Proof.
  induction l as [|e l IH]; intros sc rep.
  - simpl. destruct rep. simpl. f_equal; try lia. now rewrite app_nil_r.
  - cbn [foldl].
    destruct (recomputeOne c now (sc, rep) e) as [sc1 rep1] eqn:E.
    rewrite IH. pose proof (recomputeOne_report sc rep e) as H1.
    rewrite E in H1. cbn [snd] in H1. subst rep1.
    cbn [succeeded failed failures].
    rewrite (failuresOf_cons e l), filter_cons, !length_app, <- app_assoc.
    destruct (succeeds c now e) eqn:Es.
    + rewrite decide_True by reflexivity. simpl. f_equal; lia.
    + rewrite decide_False by discriminate. f_equal; lia.
Qed.

Lemma succeeded_plus_failed (l : list (nat * StudentRow)) :
  length (filter (fun e => succeeds c now e = true) l) +
  length (failuresOf c now l) = length l.
Proof.
  induction l as [|e l IH]; [reflexivity|].
  assert (H1 : length (failuresOf c now [e]) = if succeeds c now e then 0 else 1).
  { unfold failuresOf, succeeds. simpl.
    now destruct (calculate c now (signals e.2)). }
  rewrite filter_cons, failuresOf_cons, length_app, H1.
  destruct (succeeds c now e).
  - rewrite decide_True by reflexivity. simpl. lia.
  - rewrite decide_False by discriminate. simpl. lia.
Qed.

Lemma recomputeOne_scores_other (sc : gmap nat RiskScore) (rep : Report)
    (e : nat * StudentRow) (k : nat) :
  k <> e.1 -> (recomputeOne c now (sc, rep) e).1 !! k = sc !! k.
Proof.
  intros Hk. unfold recomputeOne.
  destruct (calculate c now (signals e.2)); simpl; [|reflexivity].
  now apply lookup_insert_ne.
Qed.

Lemma foldl_scores_other (l : list (nat * StudentRow)) :
  forall (sc : gmap nat RiskScore) (rep : Report) (k : nat),
  k ∉ l.*1 -> (foldl (recomputeOne c now) (sc, rep) l).1 !! k = sc !! k.
Proof.
  induction l as [|e l IH]; intros sc rep k Hk; [reflexivity|].
  cbn [foldl]. rewrite fmap_cons in Hk. apply not_elem_of_cons in Hk as [Hne Hk].
  destruct (recomputeOne c now (sc, rep) e) as [sc1 rep1] eqn:E.
  rewrite IH by assumption.
  change sc1 with (sc1, rep1).1. rewrite <- E.
  now apply recomputeOne_scores_other.
Qed.

Lemma foldl_scores_entry (l : list (nat * StudentRow)) :
  NoDup l.*1 ->
  forall (sc : gmap nat RiskScore) (rep : Report) (k : nat) (row : StudentRow),
  (k, row) ∈ l ->
  (foldl (recomputeOne c now) (sc, rep) l).1 !! k =
  match calculate c now (signals row) with
  | inl r => Some r
  | inr _ => sc !! k
  end.
Proof.
  induction l as [|e l IH]; intros Hnd sc rep k row Hin.
  - inversion Hin.
  - rewrite fmap_cons in Hnd. apply NoDup_cons in Hnd as [Hhd Hnd].
    cbn [foldl].
    destruct (recomputeOne c now (sc, rep) e) as [sc1 rep1] eqn:E.
    apply elem_of_cons in Hin as [<- | Hin].
    + rewrite foldl_scores_other by assumption.
      unfold recomputeOne in E. simpl in E.
      destruct (calculate c now (signals row)); injection E as <- _;
        [apply lookup_insert_eq | reflexivity].
    + rewrite (IH Hnd sc1 rep1 k row Hin).
      destruct (calculate c now (signals row)); [reflexivity|].
      change sc1 with (sc1, rep1).1. rewrite <- E.
      apply recomputeOne_scores_other. intros ->. apply Hhd.
      apply list_elem_of_fmap. now exists (e.1, row).
Qed.

Lemma activeStudents_spec (st : Store) (sid : nat) (row : StudentRow) :
  (sid, row) ∈ activeStudents st <->
  students st !! sid = Some row /\ is_active row = true.
Proof.
  unfold activeStudents. rewrite list_elem_of_filter, elem_of_map_to_list.
  simpl. tauto.
Qed.

Lemma activeStudents_NoDup (st : Store) : NoDup (activeStudents st).*1.
Proof.
  unfold activeStudents.
  pose proof (NoDup_fst_map_to_list (students st)) as H.
  induction (map_to_list (students st)) as [|e l IH]; [constructor|].
  rewrite fmap_cons in H. apply NoDup_cons in H as [Hhd H].
  rewrite filter_cons. destruct (decide (is_active e.2 = true)); [|now apply IH].
  rewrite fmap_cons. apply NoDup_cons. split; [|now apply IH].
  intros Hin. apply Hhd. apply list_elem_of_fmap in Hin as [x [Hx Hin]].
  apply list_elem_of_filter in Hin as [_ Hin].
  apply list_elem_of_fmap. now exists x.
Qed.

Lemma failuresOf_NoDup (l : list (nat * StudentRow)) :
  NoDup l.*1 -> NoDup (failuresOf c now l).*1.
Proof.
  induction l as [|e l IH]; intros H; [constructor|].
  rewrite fmap_cons in H. apply NoDup_cons in H as [Hhd H].
  unfold failuresOf in *. simpl.
  destruct (calculate c now (signals e.2)); simpl; [now apply IH|].
  apply NoDup_cons. split; [|now apply IH].
  intros Hin. apply Hhd. apply list_elem_of_fmap in Hin as [x [Hx Hin]].
  apply list_elem_of_omap in Hin as [y [Hy Hc]].
  destruct (calculate c now (signals y.2)); [discriminate|].
  injection Hc as <-. simpl in Hx. subst.
  apply list_elem_of_fmap. now exists y.
Qed.

Lemma failuresOf_spec (l : list (nat * StudentRow)) (sid : nat) (reason : string) :
  (sid, reason) ∈ failuresOf c now l <->
  exists row, (sid, row) ∈ l /\ calculate c now (signals row) = inr reason.
Proof.
  unfold failuresOf. rewrite list_elem_of_omap. split.
  - intros [[k row] [Hin Hc]]. simpl in Hc.
    destruct (calculate c now (signals row)) eqn:E; [discriminate|].
    injection Hc as -> ->. now exists row.
  - intros [row [Hin Hc]]. exists (sid, row). simpl. now rewrite Hc.
Qed.

(** C5. Recompute all goes through every active student exactly once:
    successes and failures add up to the number of active students and each
    failed student is reported once with its reason; a failure does not stop
    the batch: every active student whose computation succeeds has the new
    score stored, a failed one keeps what was stored, and so does everyone
    who is not an active student. *)
Theorem recomputeAll_partial_failures (st : Store) :
  let res := recomputeAll c now st in
  let rep := res.2 in
  NoDup (activeStudents st).*1 /\
  (succeeded rep + failed rep = length (activeStudents st))%nat /\
  succeeded rep =
    length (filter (fun e => succeeds c now e = true) (activeStudents st)) /\
  failed rep = length (failures rep) /\
  NoDup (failures rep).*1 /\
  (forall sid reason, (sid, reason) ∈ failures rep <->
     exists row, students st !! sid = Some row /\ is_active row = true /\
       calculate c now (signals row) = inr reason) /\
  (forall sid row, students st !! sid = Some row -> is_active row = true ->
     scores res.1 !! sid =
     match calculate c now (signals row) with
     | inl r => Some r
     | inr _ => scores st !! sid
     end) /\
  (forall sid, (forall row, students st !! sid = Some row -> is_active row = false) ->
     scores res.1 !! sid = scores st !! sid) /\
  students res.1 = students st.
Proof.
  intros res rep. subst rep res. unfold recomputeAll.
  destruct (foldl (recomputeOne c now) (scores st, emptyReport) (activeStudents st))
    as [sc rep] eqn:E. simpl.
  assert (Hsc : sc = (foldl (recomputeOne c now) (scores st, emptyReport)
                        (activeStudents st)).1) by now rewrite E.
  assert (Hrep : rep = (foldl (recomputeOne c now) (scores st, emptyReport)
                          (activeStudents st)).2) by now rewrite E.
  clear E. rewrite foldl_report in Hrep. simpl in Hrep. subst rep sc. simpl.
  pose proof (activeStudents_NoDup st) as Hnd.
  split; [exact Hnd|]. split; [apply succeeded_plus_failed|].
  split; [reflexivity|]. split; [reflexivity|].
  split; [now apply failuresOf_NoDup|]. split; [|split; [|split; [|reflexivity]]].
  - intros sid reason. rewrite failuresOf_spec. split.
    + intros [row [Hin Hc]]. apply activeStudents_spec in Hin as [? ?]. now exists row.
    + intros [row (Hs & Ha & Hc)]. exists row. split; [|exact Hc].
      now apply activeStudents_spec.
  - intros sid row Hs Ha.
    apply foldl_scores_entry; [exact Hnd|].
    now apply activeStudents_spec.
  - intros sid Hsid.
    apply foldl_scores_other.
    intros Hin. apply list_elem_of_fmap in Hin as [[k row] [-> Hin]].
    apply activeStudents_spec in Hin as [Hs Ha]. simpl in Hsid.
    specialize (Hsid row Hs). congruence.
Qed.

End RecomputeAllFacts.

(** ** The batch scenario *)
Section RecomputeAllScenario.
Import RiskScorer.

(** Three active students, the second with no attendance records: the
    report counts two successes and one failure with its reason, and both
    successful scores are stored. *)
Example recomputeAll_three_students :
  let absent := {| present_days := 0; total_days := 0; academic := 1 # 2;
                   overdue_amount := 0; chat_flags := 0 |} in
  let st := {| students :=
                 list_to_map [(1, {| is_active := true; signals := scenarioSignals |});
                              (2, {| is_active := true; signals := absent |});
                              (3, {| is_active := true; signals := scenarioSignals |})];
               scores := ∅ |} in
  let res := recomputeAll scenarioConfig 0 st in
  res.2 = {| succeeded := 2; failed := 1;
             failures := [(2, "missing attendance data")] |} /\
  option_map inl (scores res.1 !! 1) =
    Some (calculate scenarioConfig 0 scenarioSignals) /\
  scores res.1 !! 2 = None /\
  option_map inl (scores res.1 !! 3) =
    Some (calculate scenarioConfig 0 scenarioSignals).
Proof. vm_compute. repeat split. Qed.

End RecomputeAllScenario.

(** ** More on the chat page *)
Section ChatPageMore.
Import JsString ChatPage.

Lemma lowerChar_whitespace (c : ascii) :
  isWhiteSpace (lowerChar c) = isWhiteSpace c.
Proof. destruct c as [[] [] [] [] [] [] [] []]; reflexivity. Qed.

Lemma AllWhiteSpace_lower (s : string) :
  AllWhiteSpace s -> AllWhiteSpace (toLowerCase s).
Proof.
  induction s as [|c s IH]; simpl; [trivial|].
  intros [Hc Hs]. rewrite lowerChar_whitespace. auto.
Qed.

Lemma AllWhiteSpace_append (a b : string) :
  AllWhiteSpace (a +:+ b) <-> AllWhiteSpace a /\ AllWhiteSpace b.
Proof.
  induction a as [|c a IH].
  - simpl. tauto.
  - change (String c a +:+ b) with (String c (a +:+ b)). simpl.
    rewrite IH. tauto.
Qed.

Lemma keyword_not_blank (k : string) :
  In k safetyKeywords -> ~ AllWhiteSpace (toLowerCase k).
Proof.
  simpl. intros [<- | [<- | [<- | [<- | [<- | []]]]]];
    simpl; intros [H _]; discriminate H.
Qed.

Lemma flagged_not_blank (text : string) :
  checkSafetyKeywords text = true -> ~ AllWhiteSpace text.
Proof.
  intros H Hw. apply checkSafetyKeywords_spec in H as [k [Hin [pre [post Hk]]]].
  apply AllWhiteSpace_lower in Hw. rewrite Hk in Hw.
  apply AllWhiteSpace_append in Hw as [_ Hw].
  apply AllWhiteSpace_append in Hw as [Hw _].
  now apply (keyword_not_blank k).
Qed.

(** X1. The safety check does not depend on letter case and only grows with
    the text: when the lowercased text occurs in another lowercased text and
    the first is reported, so is the second. *)
Theorem checkSafetyKeywords_containment (text text' : string) :
  Substring (toLowerCase text) (toLowerCase text') ->
  checkSafetyKeywords text = true ->
  checkSafetyKeywords text' = true.
Proof.
  intros Hsub H. apply checkSafetyKeywords_spec in H as [k [Hin Hk]].
  apply checkSafetyKeywords_spec. exists k. split; [exact Hin|].
  now apply Substring_trans with (b := toLowerCase text).
Qed.

Lemma checkSafetyKeywords_containment_witness :
  Substring (toLowerCase "Kill Myself") (toLowerCase "i will KILL MYSELF now") /\
  checkSafetyKeywords "Kill Myself" = true /\
  checkSafetyKeywords "i will KILL MYSELF now" = true.
Proof.
  assert (Hs : Substring (toLowerCase "Kill Myself")
                 (toLowerCase "i will KILL MYSELF now"))
    by (now exists "i will ", " now").
  assert (Hc : checkSafetyKeywords "Kill Myself" = true) by reflexivity.
  split; [exact Hs|]. split; [exact Hc|].
  exact (checkSafetyKeywords_containment _ _ Hs Hc).
Defined.

(** X2. A text for which the safety alert shows is never held back by the
    form: it is not blank, the submit button is disabled only while a send is
    pending, and submitting it sends it; once sent, the button is disabled
    for every input until the send settles. *)
Theorem safety_alert_text_is_sent (data : MessageForm) (st : State) :
  checkSafetyKeywords (message data) = true ->
  submitDisabled (message data) st = isPending st /\
  sent (onSubmit data st) =
    sent st ++ [{| req_message := message data; isPrivate := isPrivateMode st |}] /\
  forall messageValue, submitDisabled messageValue (onSubmit data st) = true.
Proof.
  intros H. apply flagged_not_blank in H.
  assert (E : truthy (trim (message data)) = true).
  { destruct (trim (message data)) eqn:E; [|reflexivity].
    exfalso. apply H. now apply trim_empty_iff. }
  unfold submitDisabled, onSubmit. rewrite E. simpl.
  split; [reflexivity|]. split; [reflexivity|].
  intros messageValue. apply orb_true_r.
Qed.

Lemma safety_alert_text_is_sent_witness :
  let st := {| isPrivateMode := true; isPending := false; sent := [] |} in
  let data := {| message := "I want to harm myself" |} in
  checkSafetyKeywords (message data) = true /\
  submitDisabled (message data) st = false /\
  sent (onSubmit data st) =
    [{| req_message := "I want to harm myself"; isPrivate := true |}].
Proof.
  intros st data.
  assert (H : checkSafetyKeywords (message data) = true) by reflexivity.
  split; [exact H|].
  destruct (safety_alert_text_is_sent data st H) as (H1 & H2 & _).
  split; [exact H1 | exact H2].
Defined.

End ChatPageMore.

(** ** The auth store *)
Section AuthStoreFacts.
Import AuthStore AuthStoreUpdate Guard App.

Lemma act_consistent (st : AuthState) (a : Action) :
  Consistent st -> Consistent (act st a).
Proof.
  intros H. destruct a as [u access refresh | | p]; simpl.
  - repeat split.
  - repeat split.
  - unfold updateUser. destruct (user st) eqn:Hu; [|exact H].
    unfold Consistent in *. simpl. now rewrite Hu in H.
Qed.

Lemma foldl_act_consistent (actions : list Action) :
  forall st, Consistent st -> Consistent (foldl act st actions).
Proof.
  induction actions as [|a l IH]; intros st H; [exact H|].
  simpl. apply IH. now apply act_consistent.
Qed.

Lemma run_consistent (actions : list Action) : Consistent (run actions).
Proof. apply foldl_act_consistent. repeat split. Qed.

(** X3. Whatever sequence of logins, logouts and user updates the store has
    gone through, it is logged in exactly when it holds a user, and exactly
    when it holds each of the two tokens. *)
Theorem authStore_logged_in_iff_user (actions : list Action) :
  let st := run actions in
  (isAuthenticated st = true <-> exists u, user st = Some u) /\
  (isAuthenticated st = true <-> exists t, accessToken st = Some t) /\
  (isAuthenticated st = true <-> exists t, refreshToken st = Some t).
Proof.
  intros st. destruct (run_consistent actions) as (Hu & Ha & Hr). fold st in Hu, Ha, Hr.
  assert (G : forall (A : Type) (o : option A) (b : bool),
             isSome o = b -> (b = true <-> exists x, o = Some x)).
  { intros A [x|] b <-; simpl; split; try discriminate; eauto.
    intros [x Hx]. discriminate Hx. }
  repeat split; apply G; assumption || (intros; now apply G).
Qed.

Lemma authStore_reach (actions : list Action) :
  isAuthenticated (run actions) = false \/
  exists u, user (run actions) = Some u /\ isAuthenticated (run actions) = true.
Proof.
  destruct (run_consistent actions) as (Hu & _).
  destruct (isAuthenticated (run actions)); [right | now left].
  destruct (user (run actions)) as [u|]; [now exists u | discriminate Hu].
Qed.

Lemma merge_noChange (u : User) : merge u noChange = u.
Proof. now destruct u. Qed.

Lemma merge_overlay (u : User) (p1 p2 : PartialUser) :
  merge (merge u p1) p2 = merge u (overlay p1 p2).
Proof.
  destruct p1, p2. unfold merge, overlay, spread. simpl.
  f_equal;
    repeat match goal with
           | |- context [match ?o with Some _ => _ | None => _ end] => destruct o
           end; reflexivity.
Qed.

(** X4. Updating the user changes nothing while logged out, never touches the
    tokens or the logged-in flag, is the identity for an empty update, and
    two updates in a row are one update with the later keys winning. *)
Theorem updateUser_laws (p1 p2 : PartialUser) (st : AuthState) :
  (user st = None -> updateUser p1 st = st) /\
  accessToken (updateUser p1 st) = accessToken st /\
  refreshToken (updateUser p1 st) = refreshToken st /\
  isAuthenticated (updateUser p1 st) = isAuthenticated st /\
  updateUser noChange st = st /\
  updateUser p2 (updateUser p1 st) = updateUser (overlay p1 p2) st.
Proof.
  unfold updateUser. destruct st as [[u|] a r i]; simpl.
  - repeat split; try discriminate.
    + now rewrite merge_noChange.
    + now rewrite merge_overlay.
  - repeat split.
Qed.

Lemma updateUser_laws_witness :
  let p := {| p_id := None; p_email := None; p_full_name := Some "A";
              p_role := None; p_is_active := None; p_phone := None;
              p_created_at := None |} in
  user initial = None /\ updateUser p initial = initial.
Proof.
  intros p. assert (H : user initial = None) by reflexivity.
  split; [exact H|]. exact (proj1 (updateUser_laws p p initial) H).
Defined.

(** X5. Among all pages [App] ever renders, the login page is the one shown
    without authentication and the only one: a page is the login page exactly
    when the store is not authenticated. *)
Theorem App_login_page_iff_unauthenticated (auth : AuthState) (r : Route) (p : Page) :
  App auth r = Bare (Children p) \/ App auth r = InLayout (Children p) ->
  (p = LoginPage <-> isAuthenticated auth = false).
Proof.
  unfold App. destruct (isAuthenticated auth) eqn:Ha; simpl.
  - intros [H | H]; [discriminate|]. injection H as H.
    split; [|discriminate]. intros ->.
    destruct r; try discriminate H;
      apply ProtectedRoute_children in H as [Hd _]; discriminate Hd.
  - intros [H | H]; [|discriminate]. injection H as H.
    split; [reflexivity|]. intros _.
    destruct r; try discriminate H. now injection H.
Qed.

Lemma App_login_page_iff_unauthenticated_witness :
  App initial LoginPath = Bare (Children LoginPage) /\
  (LoginPage = LoginPage <-> isAuthenticated initial = false).
Proof.
  assert (H : App initial LoginPath = Bare (Children LoginPage)) by reflexivity.
  split; [exact H|].
  exact (App_login_page_iff_unauthenticated initial LoginPath LoginPage (or_introl H)).
Defined.

(** X6. In every state the store can reach, a guarded route inside the layout
    never sends the user back to the login route: it shows its page or the
    access-denied view, and the redirects that remain go to the dashboard. *)
Theorem App_reachable_never_back_to_login (actions : list Action) (r : Route) :
  App (run actions) r <> InLayout (NavigateTo "/login") /\
  (isAuthenticated (run actions) = true ->
   exists e, App (run actions) r = InLayout e /\
     (e = NavigateTo "/dashboard" \/ e = AccessDenied \/ exists p, e = Children p)).
Proof.
  destruct (authStore_reach actions) as [Hout | [u [Hu Ha]]].
  - split.
    + unfold App. rewrite Hout. discriminate.
    + rewrite Hout. discriminate.
  - assert (G : forall roles (c : Page),
               ProtectedRoute (run actions) roles c = AccessDenied \/
               ProtectedRoute (run actions) roles c = Children c).
    { intros roles c. unfold ProtectedRoute. rewrite Ha, Hu. simpl.
      destruct (rolesInclude roles (role u)); auto. }
    assert (K : exists e, App (run actions) r = InLayout e /\
                  (e = NavigateTo "/dashboard" \/ e = AccessDenied \/
                   exists p, e = Children p)).
    { unfold App. rewrite Ha. simpl. eexists. split; [reflexivity|].
      destruct r; eauto;
        match goal with
        | |- context [ProtectedRoute _ ?roles ?c] =>
            destruct (G roles c) as [-> | ->]; eauto
        end. }
    split; [|intros _; exact K].
    destruct K as [e [-> He]]. intros H. injection H as ->.
    destruct He as [He | [He | [p He]]]; discriminate He.
Qed.

Lemma App_reachable_never_back_to_login_witness :
  let u := {| id := 1; email := "t@school.edu"; full_name := "T";
              role := teacher; is_active := true; phone := None;
              created_at := "2024-01-01" |} in
  isAuthenticated (run [Login u "a" "r"]) = true /\
  exists e, App (run [Login u "a" "r"]) ChatPath = InLayout e /\
    (e = NavigateTo "/dashboard" \/ e = AccessDenied \/ exists p, e = Children p).
Proof.
  intros u.
  assert (H : isAuthenticated (run [Login u "a" "r"]) = true) by reflexivity.
  split; [exact H|].
  exact (proj2 (App_reachable_never_back_to_login [Login u "a" "r"] ChatPath) H).
Defined.

(** X7. Who gets which guarded page: for a logged-in user the students page and
    the risk dashboard are rendered exactly for the roles other than student,
    the admin page exactly for admin, the chat page exactly for student; in
    every other case the guard shows the access-denied view. *)
Theorem App_access_matrix (auth : AuthState) (u : User) :
  isAuthenticated auth = true -> user auth = Some u ->
  (App auth StudentsPath = InLayout (Children StudentsPage) <-> role u <> student) /\
  (App auth RiskPath = InLayout (Children RiskDashboardPage) <-> role u <> student) /\
  (App auth AdminPath = InLayout (Children AdminPage) <-> role u = admin) /\
  (App auth ChatPath = InLayout (Children ChatPage) <-> role u = student) /\
  (role u = student -> App auth StudentsPath = InLayout AccessDenied /\
                       App auth RiskPath = InLayout AccessDenied) /\
  (role u <> admin -> App auth AdminPath = InLayout AccessDenied) /\
  (role u <> student -> App auth ChatPath = InLayout AccessDenied).
Proof.
  intros Ha Hu. unfold App, ProtectedRoute. rewrite Ha, Hu. simpl.
  destruct (role u); simpl;
    repeat split; intros; try reflexivity; try discriminate; try congruence.
Qed.

Lemma App_access_matrix_witness :
  let u := {| id := 2; email := "c@school.edu"; full_name := "C";
              role := counselor; is_active := true; phone := None;
              created_at := "2024-01-01" |} in
  let auth := login u "a" "r" initial in
  isAuthenticated auth = true /\ user auth = Some u /\
  App auth RiskPath = InLayout (Children RiskDashboardPage) /\
  App auth AdminPath = InLayout AccessDenied.
Proof.
  intros u auth.
  assert (Ha : isAuthenticated auth = true) by reflexivity.
  assert (Hu : user auth = Some u) by reflexivity.
  destruct (App_access_matrix auth u Ha Hu) as (_ & H2 & _ & _ & _ & H6 & _).
  split; [exact Ha|]. split; [exact Hu|]. split.
  - apply H2. discriminate.
  - apply H6. discriminate.
Defined.

End AuthStoreFacts.

(** ** The navigation of the layout *)
Section LayoutFacts.
Import AuthStore Guard App Layout.

Lemma filteredNavigation_In (user : option User) (item : NavItem) :
  In item (filteredNavigation user) <->
  In item navigation /\ shownTo user item = true.
Proof. unfold filteredNavigation. apply filter_In. Qed.

Lemma shown_link_renders (auth : AuthState) (u : User) (item : NavItem) :
  isAuthenticated auth = true -> user auth = Some u ->
  In item navigation -> shownTo (Some u) item = true ->
  exists p, App auth (routeOf (href item)) = InLayout (Children p).
Proof.
  intros Ha Hu Hin Hs. unfold App, ProtectedRoute. rewrite Ha, Hu. simpl.
  simpl in Hin.
  destruct Hin as [<- | [<- | [<- | [<- | [<- | [<- | []]]]]]];
    simpl in Hs |- *; destruct (role u); simpl in Hs |- *;
    try discriminate Hs; eauto.
Qed.

(** X8. No dead links: every link the layout shows to a logged-in user leads
    to a route that renders its page for that user, never to the
    access-denied view or a redirect. *)
Theorem navigation_links_are_admitted (auth : AuthState) (u : User) (item : NavItem) :
  isAuthenticated auth = true -> user auth = Some u ->
  In item (filteredNavigation (user auth)) ->
  exists p, App auth (routeOf (href item)) = InLayout (Children p).
Proof.
  intros Ha Hu Hin. apply filteredNavigation_In in Hin as [Hin Hs].
  rewrite Hu in Hs. now apply (shown_link_renders auth u).
Qed.

Lemma navigation_links_are_admitted_witness :
  let u := {| id := 3; email := "m@school.edu"; full_name := "M";
              role := mentor; is_active := true; phone := None;
              created_at := "2024-01-01" |} in
  let auth := login u "a" "r" initial in
  let item := {| name := "Students"; href := "/students";
                 roles := ["teacher"; "mentor"; "counselor"; "admin"] |} in
  In item (filteredNavigation (user auth)) /\
  exists p, App auth (routeOf (href item)) = InLayout (Children p).
Proof.
  intros u auth item.
  assert (Hin : In item (filteredNavigation (user auth))) by (simpl; tauto).
  split; [exact Hin|].
  exact (navigation_links_are_admitted auth u item eq_refl eq_refl Hin).
Defined.

(** X9. The converse holds up to one page: a navigation target that renders its
    page for a logged-in user has its link shown, except the assignments page
    for a mentor or a counselor, which is open to them by address but has no
    link; and that exception does occur. *)
Theorem navigation_hides_only_assignments (auth : AuthState) (u : User) (item : NavItem) :
  isAuthenticated auth = true -> user auth = Some u ->
  In item navigation ->
  ((exists p, App auth (routeOf (href item)) = InLayout (Children p)) <->
   In item (filteredNavigation (user auth)) \/
   (href item = "/assignments" /\ (role u = mentor \/ role u = counselor))) /\
  (role u = mentor \/ role u = counselor ->
   App auth AssignmentsPath = InLayout (Children AssignmentsPage) /\
   forall i, In i (filteredNavigation (user auth)) -> href i <> "/assignments").
Proof.
  intros Ha Hu Hin. split.
  - split.
    + intros [p Hp].
      assert (Hd : shownTo (Some u) item = true \/
                   (href item = "/assignments" /\
                    (role u = mentor \/ role u = counselor))).
      { revert Hp. unfold App, ProtectedRoute. rewrite Ha, Hu. simpl.
        simpl in Hin.
        destruct Hin as [<- | [<- | [<- | [<- | [<- | [<- | []]]]]]];
          simpl; destruct (role u); simpl; intros Hp;
          try discriminate Hp; auto. }
      destruct Hd as [Hs | He]; [left | now right].
      apply filteredNavigation_In. rewrite Hu. now split.
    + intros [Hf | [He Hr]].
      * apply filteredNavigation_In in Hf as [_ Hs]. rewrite Hu in Hs.
        now apply (shown_link_renders auth u).
      * unfold App. rewrite Ha. simpl.
        simpl in Hin.
        destruct Hin as [<- | [<- | [<- | [<- | [<- | [<- | []]]]]]];
          simpl in He; try discriminate He. simpl. eauto.
  - intros Hr. split.
    + unfold App. now rewrite Ha.
    + intros i Hi. apply filteredNavigation_In in Hi as [Hi Hs].
      rewrite Hu in Hs. simpl in Hi.
      destruct Hi as [<- | [<- | [<- | [<- | [<- | [<- | []]]]]]];
        simpl; try discriminate.
      unfold shownTo in Hs. cbn [roles] in Hs.
      destruct Hr as [Hr | Hr]; rewrite Hr in Hs; discriminate Hs.
Qed.

Lemma navigation_hides_only_assignments_witness :
  let u := {| id := 3; email := "m@school.edu"; full_name := "M";
              role := mentor; is_active := true; phone := None;
              created_at := "2024-01-01" |} in
  let auth := login u "a" "r" initial in
  App auth AssignmentsPath = InLayout (Children AssignmentsPage) /\
  forall i, In i (filteredNavigation (user auth)) -> href i <> "/assignments".
Proof.
  intros u auth.
  assert (Hin : In {| name := "Chat"; href := "/chat"; roles := ["student"] |}
                  navigation) by (simpl; tauto).
  exact (proj2 (navigation_hides_only_assignments auth u _ eq_refl eq_refl Hin)
           (or_introl eq_refl)).
Defined.

End LayoutFacts.

(** ** More on the students list *)
Section StudentsPageMore.
Import JsString StudentsPage StudentsGrid.

Lemma filteredStudents_In (students : list Student)
    (searchTerm selectedRisk : string) (st : Student) :
  (exists shown, filteredStudents (Some students) searchTerm selectedRisk = Some shown /\
                 In st shown) <->
  In st students /\ NameOrIdContains searchTerm st /\ RiskSelected selectedRisk st.
Proof.
  simpl. split.
  - intros [shown [[= <-] Hin]]. apply filter_In in Hin as [Hin Hk].
    now apply keep_spec in Hk.
  - intros (Hin & Hk). eexists. split; [reflexivity|].
    apply filter_In. split; [exact Hin | now apply keep_spec].
Qed.

Lemma NameOrIdContains_narrow (t1 t2 : string) (st : Student) :
  Substring (toLowerCase t1) (toLowerCase t2) ->
  NameOrIdContains t2 st -> NameOrIdContains t1 st.
Proof.
  intros Hs [[n [Hn H]] | [i [Hi H]]]; [left; exists n | right; exists i];
    (split; [assumption|]); now apply Substring_trans with (b := toLowerCase t2).
Qed.

(** X10. Typing more narrows the list, and letter case of the search term does
    not matter: when the lowercased term occurs in a longer lowercased term,
    every student listed for the longer term is listed for the shorter one;
    and choosing a risk level only removes students from what is listed for
    all levels. *)
Theorem filteredStudents_narrows (students : list Student)
    (term1 term2 selectedRisk : string) (st : Student) :
  Substring (toLowerCase term1) (toLowerCase term2) ->
  (exists shown, filteredStudents (Some students) term2 selectedRisk = Some shown /\
                 In st shown) ->
  (exists shown, filteredStudents (Some students) term1 selectedRisk = Some shown /\
                 In st shown) /\
  (exists shown, filteredStudents (Some students) term1 EmptyString = Some shown /\
                 In st shown).
Proof.
  intros Hs Hin. apply filteredStudents_In in Hin as (Hin & Hn & Hr).
  pose proof (NameOrIdContains_narrow _ _ _ Hs Hn) as Hn1.
  split; apply filteredStudents_In; (split; [exact Hin|]);
    (split; [exact Hn1|]); [exact Hr | now left].
Qed.

Lemma filteredStudents_narrows_witness :
  let s := {| user := Some {| full_name := Some "Asha Rao" |};
              student_id := Some "STU001";
              current_risk_score := Some {| risk_level := Some "red" |} |} in
  Substring (toLowerCase "sh") (toLowerCase "ASHA") /\
  exists shown, filteredStudents (Some [s]) "sh" "red" = Some shown /\ In s shown.
Proof.
  intros s.
  assert (Hs : Substring (toLowerCase "sh") (toLowerCase "ASHA"))
    by (now exists "a", "a").
  assert (Hin : exists shown, filteredStudents (Some [s]) "ASHA" "red" = Some shown /\
                              In s shown)
    by (exists [s]; split; [reflexivity | now left]).
  split; [exact Hs|].
  exact (proj1 (filteredStudents_narrows [s] "sh" "ASHA" "red" s Hs Hin)).
Defined.

Lemma Substring_empty (s : string) : Substring EmptyString s.
Proof. now exists EmptyString, s. Qed.

(** X11. With an empty search box and no risk level chosen the list still hides
    a student that has neither a name nor a student id; every other student
    is listed. *)
Theorem filteredStudents_no_filter (students : list Student) :
  exists shown,
    filteredStudents (Some students) EmptyString EmptyString = Some shown /\
    forall st, In st shown <->
      In st students /\ (fullName st <> None \/ student_id st <> None).
Proof.
  eexists. split; [reflexivity|]. intros st.
  rewrite filter_In, keep_spec. unfold NameOrIdContains, RiskSelected.
  split.
  - intros (Hin & [[n [Hn _]] | [i [Hi _]]] & _); split; try exact Hin.
    + left. congruence.
    + right. congruence.
  - intros (Hin & Hd). split; [exact Hin|]. split; [|now left].
    destruct (fullName st) as [n|] eqn:En.
    + left. exists n. split; [reflexivity | apply Substring_empty].
    + destruct (student_id st) as [i|] eqn:Ei.
      * right. exists i. split; [reflexivity | apply Substring_empty].
      * destruct Hd as [Hd | Hd]; congruence.
Qed.

(** X12. The panel "No students found" appears only when the page has no student
    data at all: with data, a filter that matches nobody leaves an empty
    grid, without the panel and without its hint. *)
Theorem grid_panel_only_without_data (students : option (list Student))
    (searchTerm selectedRisk : string) :
  ((exists hint, grid students searchTerm selectedRisk = NoStudentsFound hint) <->
   students = None) /\
  (forall l, students = Some l ->
     (forall st, In st l ->
        ~ (NameOrIdContains searchTerm st /\ RiskSelected selectedRisk st)) ->
     grid students searchTerm selectedRisk = Cards []).
Proof.
  unfold grid. destruct students as [l|]; simpl.
  - split.
    + split; [intros [hint H]; discriminate H | discriminate].
    + intros l' [= <-] Hnone. f_equal.
      induction l as [|s l IH]; simpl; [reflexivity|].
      destruct (truthyB (keep searchTerm selectedRisk s)) eqn:Ek.
      * exfalso. apply keep_spec in Ek. apply (Hnone s); [now left | exact Ek].
      * apply IH. intros st Hin. apply Hnone. now right.
  - split; [split; [reflexivity | eauto] | discriminate].
Qed.

Lemma grid_panel_only_without_data_witness :
  let s := {| user := Some {| full_name := Some "Ravi" |};
              student_id := Some "STU002"; current_risk_score := None |} in
  grid (Some [s]) "zzz" "red" = Cards [].
Proof.
  intros s.
  apply (proj2 (grid_panel_only_without_data (Some [s]) "zzz" "red") [s] eq_refl).
  intros st [<- | []] [_ [H | H]]; discriminate H.
Defined.

End StudentsPageMore.
